(** * Greeting components and their test harness

  A shallow embedding of the two greeting components of the tutorial
  ([HelloWorld] and [HelloPerson], listed in the README), of the tree
  they are rendered to, and of the mount/query harness and per-test
  cleanup hook that the test files and [setupTests.js] call. *)

From Stdlib Require Import String Ascii List Bool Arith Lia.
From stdpp Require Import base option list strings gmap.

Local Open Scope string_scope.
Local Open Scope list_scope.

(** ** JavaScript values that reach a greeting prop *)

Module Js.

(** The values of a prop that are modelled: a missing prop reads as
    [undefined]; [VObj] is a plain object (neither an element nor an
    iterable), the one kind of value React refuses to render as a child.
    Numbers, arrays, elements, functions and symbols, which an untyped
    prop can also carry, are not modelled: the statements about the
    components range over requests, whose name is a string or unset, or
    name the kind of value they are about. *)
Inductive value : Type :=
| VUndefined
| VNull
| VBool (b : bool)
| VStr (s : string)
| VObj.

(** Reading a property of the props object: [props.k], [undefined] when
    the key is absent. This is what the parameter pattern [{ name }]
    does for [k = "name"]. *)
Definition get (p : gmap string value) (k : string) : value :=
  default VUndefined (p !! k).

(** The values that show nothing when they stand as a child of an
    element: [undefined], [null], booleans and the empty string. *)
Definition showsNothing (v : value) : bool :=
  match v with
  | VUndefined | VNull | VBool _ | VStr EmptyString => true
  | VStr (String _ _) | VObj => false
  end.

End Js.

(** ** JSX elements and the two components *)

Module Jsx.
Import Js.

(** A child of a JSX element as the two listings have them: literal
    text, or an expression in braces. Nested elements, which neither
    listing has, are not modelled, so a component of this type returns
    one element with text below it. *)
Inductive child : Type :=
| JSXText (s : string)
| JSXExpressionContainer (v : value).

(** The element a component returns: [<type>children</type>]. *)
Record element : Type := { type : string; children : list child }.

Definition component : Type := gmap string value -> element.

(** [function HelloWorld() { return <h1>Hello World!</h1> }] *)
Definition HelloWorld : component :=
  fun _ => {| type := "h1"; children := [JSXText "Hello World!"] |}.

(** [function HelloPerson({ name }) { return <h1>Hello {name}!</h1> }] *)
Definition HelloPerson : component :=
  fun p =>
    let name := get p "name" in
    {| type := "h1";
       children := [JSXText "Hello "; JSXExpressionContainer name; JSXText "!"] |}.

End Jsx.

(** ** The rendered tree *)

Module Dom.

#[warnings="-register-all"]
Inductive Node : Type :=
| Text (data : string)
| Element (tagName : string) (childNodes : list Node).

(** [node.textContent]: the text of all descendants, in document order. *)
Fixpoint textContent (n : Node) : string :=
  match n with
  | Text s => s
  | Element _ cs => fold_right (fun c acc => textContent c +:+ acc) EmptyString cs
  end.

(** The text a node owns: the data of its text-node children, joined.
    This is the text a query by text compares with the pattern. *)
Definition ownText (n : Node) : string :=
  match n with
  | Text _ => EmptyString
  | Element _ cs =>
      fold_right (fun c acc => match c with Text s => s +:+ acc | Element _ _ => acc end)
                 EmptyString cs
  end.

(** The element nodes of a tree, the root first ([querySelectorAll('*')]
    together with the root). *)
Fixpoint elements (n : Node) : list Node :=
  match n with
  | Text _ => []
  | Element _ cs => n :: flat_map elements cs
  end.

(** The text nodes of a tree, in document order. *)
Fixpoint textNodes (n : Node) : list string :=
  match n with
  | Text s => [s]
  | Element _ cs => flat_map textNodes cs
  end.


End Dom.

(** ** From an element to its tree *)

Module ReactDom.
Import Js Jsx Dom.

(** The one error rendering can raise here: "Objects are not valid as a
    React child". *)
Inductive RenderError : Type := InvalidChild.

(** What one child contributes to the host node: literal text and
    non-empty strings become a text node; [undefined], [null], booleans
    and the empty string render nothing; a plain object throws. *)
Definition renderChild (c : child) : RenderError + list Node :=
  match c with
  | JSXText s => inr [Text s]
  | JSXExpressionContainer v =>
      match v with
      | VStr EmptyString => inr []
      | VStr s => inr [Text s]
      | VUndefined | VNull | VBool _ => inr []
      | VObj => inl InvalidChild
      end
  end.

Fixpoint renderChildren (cs : list child) : RenderError + list Node :=
  match cs with
  | [] => inr []
  | c :: cs' =>
      match renderChild c with
      | inl e => inl e
      | inr ns =>
          match renderChildren cs' with
          | inl e => inl e
          | inr ns' => inr (ns ++ ns')
          end
      end
  end.

Definition createDom (e : element) : RenderError + Node :=
  match renderChildren (children e) with
  | inl err => inl err
  | inr ns => inr (Element (type e) ns)
  end.

End ReactDom.

(** ** The greeting renderer *)

Module Greeting.
Import Js Jsx Dom ReactDom.

(** The request of the data model: one optional attribute. *)
Record GreetingRequest : Type := { subjectName : option string }.

(** The JSX a request stands for: [<HelloWorld />] when the name is
    unset, [<HelloPerson name={n} />] when it is [n]. *)
Definition ui (r : GreetingRequest) : component * gmap string value :=
  match subjectName r with
  | None => (HelloWorld, ∅)
  | Some n => (HelloPerson, {[ "name" := VStr n ]})
  end.

(** Calling the component on its props and building the tree. *)
Definition renderElement (c : component) (p : gmap string value) : RenderError + Node :=
  createDom (c p).

Definition render (r : GreetingRequest) : RenderError + Node :=
  renderElement (ui r).1 (ui r).2.

(** The declared input domain: unset, or a non-empty string. *)
Definition inDomain (r : GreetingRequest) : Prop :=
  match subjectName r with
  | None => True
  | Some n => n ≠ EmptyString
  end.

End Greeting.

(** ** Text utilities *)

Module Str.

(** The number of positions of [s] at which [n] occurs as a substring. *)
Fixpoint occurrences (n s : string) : nat :=
  (if String.prefix n s then 1 else 0)
  + match s with
    | EmptyString => 0
    | String _ s' => occurrences n s'
    end.

(** The characters of the greeting template around the name. *)
Definition templateChars : list ascii := list_ascii_of_string "Hello !".

(** [s.includes(n)] *)
Definition includes (n s : string) : bool := negb (Nat.eqb (occurrences n s) 0).

(** Lower-casing of one character and of a string. Strings are byte
    strings and the letters folded are the ASCII letters A to Z; the
    letters outside ASCII, which JavaScript folds too, are left as they
    are. *)
Definition toLower (a : ascii) : ascii :=
  let k := nat_of_ascii a in
  if (65 <=? k)%nat && (k <=? 90)%nat then ascii_of_nat (k + 32) else a.

Fixpoint toLowerCase (s : string) : string :=
  match s with
  | EmptyString => EmptyString
  | String a s' => String (toLower a) (toLowerCase s')
  end.

(** No character of [s] is white space (space, tab, line feed, vertical
    tab, form feed, carriage return). *)
Definition noWhiteSpace (s : string) : bool :=
  forallb (fun c => negb (Ascii.is_space c)) (list_ascii_of_string s).

(** The upper-case letters, each with its lower-case form. *)
Definition letters : list (ascii * ascii) :=
  combine (list_ascii_of_string "ABCDEFGHIJKLMNOPQRSTUVWXYZ")
          (list_ascii_of_string "abcdefghijklmnopqrstuvwxyz").

(** Modelled from the spec: what "case-insensitive" means for two
    characters, said without the lower-casing function: they are the same
    character, or the two cases of one of the letters A to Z. *)
Definition sameLetter (a c : ascii) : Prop :=
  a = c \/ In (a, c) letters \/ In (c, a) letters.

(** [sameLetter], decided. *)
Definition sameLetterb (a c : ascii) : bool :=
  Ascii.eqb a c
  || existsb (fun ul => (Ascii.eqb ul.1 a && Ascii.eqb ul.2 c)
                        || (Ascii.eqb ul.1 c && Ascii.eqb ul.2 a)) letters.

(** Modelled from the spec: two texts that differ at most in the case of
    their letters. *)
Fixpoint sameUpToCase (s t : string) : Prop :=
  match s, t with
  | EmptyString, EmptyString => True
  | String a s', String c t' => sameLetter a c /\ sameUpToCase s' t'
  | _, _ => False
  end.


End Str.

(** ** Regular expressions of the queries *)

Module RegExp.

(** The fragment of regular-expression syntax the queries are written in:
    [/Hello, Bob!/], [/Hello,? Alice!/], [/hello world/i]. *)
Inductive regex : Type :=
| Never
| Eps
| Chr (a : ascii)
| Any
| Seq (r1 r2 : regex)
| Alt (r1 r2 : regex)
| Star (r : regex).

(** [r?] *)
Definition Opt (r : regex) : regex := Alt r Eps.

(** A run of literal characters. *)
Fixpoint lit (s : string) : regex :=
  match s with
  | EmptyString => Eps
  | String a s' => Seq (Chr a) (lit s')
  end.

Fixpoint nullable (r : regex) : bool :=
  match r with
  | Never => false
  | Eps => true
  | Chr _ => false
  | Any => false
  | Seq r1 r2 => nullable r1 && nullable r2
  | Alt r1 r2 => nullable r1 || nullable r2
  | Star _ => true
  end.

(** Comparison of a pattern character with a text character; with [i]
    set (the [/i] flag) characters are compared up to case. *)
Definition sameChar (i : bool) (a c : ascii) : bool :=
  if i then Ascii.eqb (Str.toLower a) (Str.toLower c) else Ascii.eqb a c.

(** The residual of [r] after reading [c]. *)
Fixpoint deriv (i : bool) (c : ascii) (r : regex) : regex :=
  match r with
  | Never => Never
  | Eps => Never
  | Chr a => if sameChar i a c then Eps else Never
  | Any => Eps
  | Seq r1 r2 =>
      if nullable r1
      then Alt (Seq (deriv i c r1) r2) (deriv i c r2)
      else Seq (deriv i c r1) r2
  | Alt r1 r2 => Alt (deriv i c r1) (deriv i c r2)
  | Star r1 => Seq (deriv i c r1) (Star r1)
  end.

(** [r] matches the whole of [s]. *)
Fixpoint fullMatch (i : bool) (r : regex) (s : string) : bool :=
  match s with
  | EmptyString => nullable r
  | String c s' => fullMatch i (deriv i c r) s'
  end.

(** [r.test(s)]: an unanchored expression matches somewhere in [s]. *)
Definition test (i : bool) (r : regex) (s : string) : bool :=
  fullMatch i (Seq (Star Any) (Seq r (Star Any))) s.

(** The strings an expression stands for. *)
Inductive accepts (i : bool) : regex -> string -> Prop :=
| accepts_Eps : accepts i Eps EmptyString
| accepts_Chr a c : sameChar i a c = true -> accepts i (Chr a) (String c EmptyString)
| accepts_Any c : accepts i Any (String c EmptyString)
| accepts_Seq r1 r2 s1 s2 :
    accepts i r1 s1 -> accepts i r2 s2 -> accepts i (Seq r1 r2) (s1 +:+ s2)
| accepts_Alt_l r1 r2 s : accepts i r1 s -> accepts i (Alt r1 r2) s
| accepts_Alt_r r1 r2 s : accepts i r2 s -> accepts i (Alt r1 r2) s
| accepts_Star_nil r : accepts i (Star r) EmptyString
| accepts_Star_more r s1 s2 :
    accepts i r s1 -> accepts i (Star r) s2 -> accepts i (Star r) (s1 +:+ s2).

End RegExp.

(** ** The mount/query harness and the per-test hook

    The tests call [render], [screen.getByText] and [cleanup] of the
    testing library, and [afterEach] of the test runner; their code is
    not part of the sources, so they are modelled from section 4.2, 4.3
    and 7 of the specification. *)

Module Harness.
Import Js Jsx Dom ReactDom.

(** Modelled from the spec: the pattern argument of [findByText], whose
    matcher is missing from the sources: "an exact string or a
    case-insensitive substring/regex match". [Matching r i] is the
    expression [r] with the [/i] flag when [i] is set. *)
Inductive pattern : Type :=
| Exact (s : string)
| Substring (s : string)
| Matching (r : RegExp.regex) (ignoreCase : bool).

(** Modelled from the spec: the missing text matcher, applied to the
    text a node owns. *)
Definition matchesText (p : pattern) (text : string) : bool :=
  match p with
  | Exact s => String.eqb text s
  | Substring s => Str.includes (Str.toLowerCase s) (Str.toLowerCase text)
  | Matching r i => RegExp.test i r text
  end.

(** Modelled from the spec: the two query failures of section 7. *)
Inductive QueryError : Type := NotFoundError | AmbiguousMatchError.

(** Modelled from the spec: the missing query engine; all element nodes
    under [roots] whose own text matches. *)
Definition queryAllByText (p : pattern) (roots : list Node) : list Node :=
  List.filter (fun n => matchesText p (ownText n)) (flat_map elements roots).

(** Modelled from the spec: the missing [getByText]; "fails with
    NotFoundError if zero matches, fails with AmbiguousMatchError if more
    than one match". *)
Definition getByText (p : pattern) (roots : list Node) : QueryError + Node :=
  match queryAllByText p roots with
  | [] => inl NotFoundError
  | [n] => inr n
  | _ :: _ :: _ => inl AmbiguousMatchError
  end.

(** Modelled from the spec: the simulated document, missing from the
    sources; the trees attached to it, by query handle, and the next free
    handle. *)
Record Document : Type := { attached : gmap nat Node; nextHandle : nat }.

Definition emptyDocument : Document := {| attached := ∅; nextHandle := 0 |}.

(** What makes a test fail: an exception of the renderer, a failed query,
    or a failed expectation. *)
Inductive Failure : Type :=
| Thrown (e : RenderError)
| QueryFailed (e : QueryError)
| ExpectationFailed.

(** A test step: it reads and updates the document, and returns a value
    or fails. *)
Definition Test (A : Type) : Type := Document -> (Failure + A) * Document.

Definition ret {A} (a : A) : Test A := fun d => (inr a, d).

Definition bind {A B} (m : Test A) (k : A -> Test B) : Test B :=
  fun d =>
    match m d with
    | (inl e, d') => (inl e, d')
    | (inr a, d') => k a d'
    end.

#[global] Instance Test_ret : MRet Test := @ret.
#[global] Instance Test_bind : MBind Test := fun A B k m => bind m k.

Definition result {A} (m : Test A) (d : Document) : Failure + A := (m d).1.
Definition after {A} (m : Test A) (d : Document) : Document := (m d).2.

(** Modelled from the spec: the missing [mount]; "attaches the
    description to a simulated document; returns a handle". *)
Definition mount (tree : Node) : Test nat :=
  fun d =>
    (inr (nextHandle d),
     {| attached := <[ nextHandle d := tree ]> (attached d);
        nextHandle := S (nextHandle d) |}).

(** Modelled from the spec: [render(<C {...p} />)] of the tests, missing
    from the sources; the component is called on its props, its element
    is turned into a tree, and the tree is mounted. *)
Definition render (c : component) (p : gmap string value) : Test nat :=
  fun d =>
    match Greeting.renderElement c p with
    | inl e => (inl (Thrown e), d)
    | inr tree => mount tree d
    end.

(** Modelled from the spec: the missing [findByText] of a query handle;
    a handle whose tree is no longer attached has nothing to match. *)
Definition findByText (h : nat) (p : pattern) : Test Node :=
  fun d =>
    match attached d !! h with
    | None => (inl (QueryFailed NotFoundError), d)
    | Some tree =>
        match getByText p [tree] with
        | inl e => (inl (QueryFailed e), d)
        | inr n => (inr n, d)
        end
    end.

(** Modelled from the spec: [screen.getByText] of the tests, missing
    from the sources; the query over everything attached to the document. *)
Definition screenGetByText (p : pattern) : Test Node :=
  fun d =>
    match getByText p (map snd (map_to_list (attached d))) with
    | inl e => (inl (QueryFailed e), d)
    | inr n => (inr n, d)
    end.

(** Modelled from the spec: the missing [unmount]; "detaches the tree". *)
Definition unmount (h : nat) : Test unit :=
  fun d =>
    (inr tt, {| attached := delete h (attached d); nextHandle := nextHandle d |}).

(** Modelled from the spec: the missing [cleanup]; "calls unmount on any
    tree mounted during the test". *)
Definition cleanup : Test unit :=
  fun d =>
    (inr tt,
     fold_right (fun h d' => after (unmount h) d') d
                (map fst (map_to_list (attached d)))).

(** [afterEach(() => { cleanup() })] of [setupTests.js]. *)
Definition afterEachHook : Test unit := cleanup.

(** Modelled from the spec: the missing test runner; the hook is
    "invoked after every test completes, regardless of pass/fail". *)
Definition runTest {A} (t : Test A) : Test A :=
  fun d =>
    match t d with
    | (outcome, d') => (outcome, after afterEachHook d')
    end.

(** Modelled from the spec: the missing runner of a test file; the
    tests "run sequentially within a test file", each followed by the
    hook, and every outcome is recorded. *)
Fixpoint runSuite (ts : list (Test unit)) (d : Document)
  : list (Failure + unit) * Document :=
  match ts with
  | [] => ([], d)
  | t :: ts' =>
      match runTest t d with
      | (outcome, d') =>
          match runSuite ts' d' with
          | (outcomes, d'') => (outcome :: outcomes, d'')
          end
      end
  end.

End Harness.

(** ** The test files *)

Module Tests.
Import Js Jsx Dom ReactDom Harness.

(** Structural equality of trees. *)
Fixpoint nodeEqb (a b : Node) : bool :=
  match a, b with
  | Text s, Text t => String.eqb s t
  | Element ta ca, Element tb cb =>
      String.eqb ta tb
      && (fix all2 (l1 l2 : list Node) : bool :=
            match l1, l2 with
            | [], [] => true
            | x :: l1', y :: l2' => nodeEqb x y && all2 l1' l2'
            | _, _ => false
            end) ca cb
  | _, _ => false
  end.

(** Modelled from the spec: [expect(node).toBeInTheDocument()], whose
    matcher is missing from the sources; the assertion "on the presence"
    of a matched node in the simulated document. *)
Definition expectToBeInTheDocument (n : Node) : Test unit :=
  fun d =>
    if existsb (nodeEqb n) (flat_map elements (map snd (map_to_list (attached d))))
    then (inr tt, d)
    else (inl ExpectationFailed, d).

(** [/Hello, Bob!/] and [/Hello, Alice!/] of [HelloPerson.test.jsx]. *)
Definition re_Hello_comma_Bob : RegExp.regex := RegExp.lit "Hello, Bob!".
Definition re_Hello_comma_Alice : RegExp.regex := RegExp.lit "Hello, Alice!".

(** [/Hello,? Alice!/] and [/Hello,? Bob!/] of the scenarios. *)
Definition re_Hello_opt_comma (name : string) : RegExp.regex :=
  RegExp.Seq (RegExp.lit "Hello")
    (RegExp.Seq (RegExp.Opt (RegExp.Chr ","))
       (RegExp.Seq (RegExp.Chr " ") (RegExp.Seq (RegExp.lit name) (RegExp.Chr "!")))).

(** The test "should render Hello World!" of the HelloWorld test file. *)
Definition test_HelloWorld : Test unit :=
  _ ← render HelloWorld ∅;
  helloHeading ← screenGetByText (Exact "Hello World!");
  expectToBeInTheDocument helloHeading.

Section HelloPersonTests.

(** [import { HelloPerson } from "./HelloPerson"] *)
Variable HelloPerson : component.

(** "should say hi to Bob" *)
Definition test_say_hi_to_Bob : Test unit :=
  _ ← render HelloPerson {[ "firstName" := VStr "Bob" ]};
  helloComponent ← screenGetByText (Matching re_Hello_comma_Bob false);
  expectToBeInTheDocument helloComponent.

(** "should say hi to Alice" *)
Definition test_say_hi_to_Alice : Test unit :=
  _ ← render HelloPerson {[ "firstName" := VStr "Alice" ]};
  helloComponent ← screenGetByText (Matching re_Hello_comma_Alice false);
  expectToBeInTheDocument helloComponent.

End HelloPersonTests.

(** The two tests of the HelloPerson test listed in the README,
    [render(<HelloPerson name="Alice" />)] followed by
    [expect(screen.getByText("Hello Alice!")).toBeInTheDocument()], and
    the same for "Bob": one script, at a name and the text expected. *)
Definition test_name_displayed (name expected : string) : Test unit :=
  _ ← render Jsx.HelloPerson {[ "name" := VStr name ]};
  found ← screenGetByText (Exact expected);
  expectToBeInTheDocument found.

(** "should display the person's name" *)
Definition test_README_Alice : Test unit :=
  test_name_displayed "Alice" "Hello Alice!".

(** "should work with different names" *)
Definition test_README_Bob : Test unit :=
  test_name_displayed "Bob" "Hello Bob!".

End Tests.

Import Js Jsx Dom ReactDom Greeting.

(** * Properties *)

(** ** What the two components render *)

Lemma render_HelloWorld (r : GreetingRequest) :
  subjectName r = None ->
  Greeting.render r = inr (Element "h1" [Text "Hello World!"]).
Proof.
  intros Hnone. unfold Greeting.render, ui. rewrite Hnone. reflexivity.
Qed.

Lemma HelloPerson_reads_name (p : gmap string value) (n : string) :
  p !! "name" = Some (VStr n) ->
  HelloPerson p
  = {| type := "h1";
       children := [JSXText "Hello "; JSXExpressionContainer (VStr n); JSXText "!"] |}.
Proof.
  intros Hname. unfold HelloPerson, get. rewrite Hname. reflexivity.
Qed.

Lemma render_HelloPerson (n : string) :
  Greeting.render {| subjectName := Some n |}
  = inr (Element "h1"
           (match n with
            | EmptyString => [Text "Hello "; Text "!"]
            | String _ _ => [Text "Hello "; Text n; Text "!"]
            end)).
Proof.
  unfold Greeting.render, ui, renderElement. cbn [subjectName fst snd].
  rewrite (HelloPerson_reads_name _ n) by apply lookup_singleton_eq.
  destruct n; reflexivity.
Qed.

Lemma HelloPerson_textContent (n : string) (tree : Node) :
  Greeting.render {| subjectName := Some n |} = inr tree ->
  textContent tree = "Hello " +:+ n +:+ "!".
Proof.
  rewrite render_HelloPerson. intros [= <-]. destruct n; reflexivity.
Qed.

(** A plain object passed as the name makes the renderer throw: the error
    branch of [renderChild] is reachable, though not from a request. *)
Example HelloPerson_object_name_throws :
  renderElement HelloPerson {[ "name" := VObj ]} = inl InvalidChild.
Proof. reflexivity. Qed.

(** ** Occurrences of a name in the greeting *)

Section Occurrences.

Import Str.

Lemma prefix_length (a b : string) :
  String.prefix a b = true -> String.length a <= String.length b.
Proof.
  revert a. induction b as [|y b IH]; intros [|x a]; simpl; try lia; try discriminate.
  destruct (ascii_dec x y); [|discriminate].
  intros H. apply IH in H. lia.
Qed.

Lemma prefix_app (n t : string) : String.prefix n (n +:+ t) = true.
Proof.
  induction n as [|x n IH]; simpl.
  - destruct t; reflexivity.
  - destruct (ascii_dec x x); [exact IH | congruence].
Qed.

Lemma occurrences_short (n s : string) :
  String.length s < String.length n -> occurrences n s = 0.
Proof.
  induction s as [|y s IH]; intros Hlen.
  - destruct n; simpl in *; [lia | reflexivity].
  - cbn [occurrences].
    destruct (String.prefix n (String y s)) eqn:Hp.
    + apply prefix_length in Hp. lia.
    + rewrite IH; [reflexivity | simpl in Hlen; lia].
Qed.

(** A name that also starts one position later, running into the closing
    character [d], consists of copies of [d]. *)
Lemma prefix_shifted (c d : ascii) (n' : string) :
  String.prefix (String c n') (n' +:+ String d EmptyString) = true -> c = d.
Proof.
  revert c. induction n' as [|a n' IH]; intros c; simpl.
  - destruct (ascii_dec c d); [auto | discriminate].
  - destruct (ascii_dec c a) as [->|]; [|discriminate].
    intros H. symmetry. symmetry. exact (IH a H).
Qed.

Lemma length_app (a b : string) :
  String.length (a +:+ b) = String.length a + String.length b.
Proof. induction a as [|x a IH]; simpl; [reflexivity | now rewrite IH]. Qed.

Lemma occurrences_after_name (c d : ascii) (n' : string) :
  c <> d -> occurrences (String c n') (n' +:+ String d EmptyString) = 0.
Proof.
  intros Hcd.
  assert (Hp : String.prefix (String c n') (n' +:+ String d EmptyString) = false).
  { destruct (String.prefix _ _) eqn:Hp; [|reflexivity].
    apply prefix_shifted in Hp. contradiction. }
  destruct n' as [|a n'].
  - simpl. destruct (ascii_dec c d); [contradiction | reflexivity].
  - change (String a n' +:+ String d EmptyString) with (String a (n' +:+ String d EmptyString)) in *.
    cbn [occurrences]. rewrite Hp.
    rewrite occurrences_short; [reflexivity|].
    rewrite length_app. simpl. lia.
Qed.

Lemma occurrences_skip (c y : ascii) (n' s : string) :
  c <> y ->
  occurrences (String c n') (String y s) = occurrences (String c n') s.
Proof.
  intros Hcy. cbn [occurrences]. simpl String.prefix.
  destruct (ascii_dec c y); [contradiction | reflexivity].
Qed.

Lemma occurrences_in_greeting (c : ascii) (n' : string) :
  ~ In c templateChars ->
  occurrences (String c n') ("Hello " +:+ String c n' +:+ "!") = 1.
Proof.
  intros Hc. unfold templateChars in Hc. simpl in Hc.
  assert (Hne : forall y, In y (list_ascii_of_string "Hello !") -> c <> y).
  { intros y Hy ->. apply Hc. exact Hy. }
  simpl in Hne.
  change ("Hello " +:+ String c n' +:+ "!")
    with (String "H" (String "e" (String "l" (String "l" (String "o" (String " "
            (String c (n' +:+ "!")))))))).
  rewrite !occurrences_skip by (apply Hne; tauto).
  cbn [occurrences].
  change (String c (n' +:+ "!")) with (String c n' +:+ "!").
  rewrite prefix_app.
  rewrite occurrences_after_name by (apply Hne; tauto).
  reflexivity.
Qed.

Lemma occurrences_at_least_one (n : string) :
  1 <= occurrences n ("Hello " +:+ n +:+ "!").
Proof.
  change ("Hello " +:+ n +:+ "!")
    with (String "H" (String "e" (String "l" (String "l" (String "o" (String " "
            (n +:+ "!"))))))).
  assert (H : 1 <= occurrences n (n +:+ "!")).
  { pose proof (prefix_app n "!") as Hp.
    destruct (n +:+ "!"); cbn [occurrences]; rewrite Hp; lia. }
  cbn [occurrences]. lia.
Qed.

End Occurrences.

(** ** The greeting renderer: claims C1, C2, C3, C6, C9, C10 *)

(** C1: rendering a request whose subjectName is unset (the HelloWorld
    component) succeeds, and the tree it produces has the single text node
    "Hello World!": its visible text is exactly that literal. *)
Theorem C1_HelloWorld_renders_literal (r : GreetingRequest) :
  subjectName r = None ->
  exists tree,
    Greeting.render r = inr tree
    /\ textContent tree = "Hello World!"
    /\ textNodes tree = ["Hello World!"]
    /\ elements tree = [tree].
Proof.
  intros Hnone. eexists. split; [apply render_HelloWorld, Hnone|].
  repeat split.
Qed.

Lemma C1_HelloWorld_renders_literal_witness :
  subjectName {| subjectName := None |} = None
  /\ exists tree,
       Greeting.render {| subjectName := None |} = inr tree
       /\ textContent tree = "Hello World!"
       /\ textNodes tree = ["Hello World!"]
       /\ elements tree = [tree].
Proof.
  split; [reflexivity|].
  apply (C1_HelloWorld_renders_literal {| subjectName := None |}). reflexivity.
Defined.

(** C2 as stated fails: the text rendered for the name "l" is "Hello l!",
    in which "l" occurs three times, not once. *)
Lemma C2_counterexample_name_l :
  ~ (forall n : string, n <> EmptyString ->
       forall tree, Greeting.render {| subjectName := Some n |} = inr tree ->
       Str.occurrences n (textContent tree) = 1).
Proof.
  intros H.
  specialize (H "l" ltac:(discriminate) _ (render_HelloPerson "l")).
  vm_compute in H. discriminate.
Qed.

(** C2 (amended): for every non-empty name n, HelloPerson renders the
    three text nodes "Hello ", n, "!": n is put into the template once,
    after the prefix "Hello " and before "!", and no other name is. The
    text "Hello n!" therefore contains n, and contains it exactly once
    when the first character of n is none of the template's own
    characters. *)
Theorem C2_HelloPerson_wraps_name (n : string) :
  n <> EmptyString ->
  exists tree,
    Greeting.render {| subjectName := Some n |} = inr tree
    /\ textNodes tree = ["Hello "; n; "!"]
    /\ textContent tree = "Hello " +:+ n +:+ "!"
    /\ 1 <= Str.occurrences n (textContent tree)
    /\ (forall c n', n = String c n' -> ~ In c Str.templateChars ->
        Str.occurrences n (textContent tree) = 1).
Proof.
  intros Hne. eexists. split; [apply render_HelloPerson|].
  destruct n as [|c0 n0]; [contradiction|].
  cbn [textNodes flat_map app textContent fold_right].
  split; [reflexivity|]. split; [reflexivity|].
  change ("Hello " +:+ String c0 n0 +:+ "!" +:+ EmptyString)
    with ("Hello " +:+ String c0 n0 +:+ "!").
  split.
  - apply occurrences_at_least_one.
  - intros c n' [= <- <-] Hc. apply occurrences_in_greeting, Hc.
Qed.

Lemma C2_HelloPerson_wraps_name_witness :
  "Bob" <> EmptyString
  /\ exists tree,
       Greeting.render {| subjectName := Some "Bob" |} = inr tree
       /\ textNodes tree = ["Hello "; "Bob"; "!"]
       /\ textContent tree = "Hello " +:+ "Bob" +:+ "!"
       /\ 1 <= Str.occurrences "Bob" (textContent tree)
       /\ (forall c n', "Bob" = String c n' -> ~ In c Str.templateChars ->
           Str.occurrences "Bob" (textContent tree) = 1).
Proof.
  split; [discriminate|].
  apply (C2_HelloPerson_wraps_name "Bob"). discriminate.
Defined.

(** C3 as stated fails: for the name "Bob" the HelloPerson of the
    sources shows "Hello Bob!", which is not "Hello, Bob!"; the
    expression [/Hello, Bob!/] does not match it. *)
Lemma C3_counterexample_Bob :
  ~ (forall s : string, s <> EmptyString ->
       forall tree, Greeting.render {| subjectName := Some s |} = inr tree ->
       textContent tree = "Hello, " +:+ s +:+ "!").
Proof.
  intros H.
  specialize (H "Bob" ltac:(discriminate) _ (render_HelloPerson "Bob")).
  vm_compute in H. discriminate.
Qed.

(** C3 (amended): for every non-empty name s, the tree rendered for s is
    one heading whose text nodes are "Hello ", s and "!": its sole
    visible text is exactly "Hello s!", the format without a comma, and
    never "Hello, s!". *)
Theorem C3_HelloPerson_text_without_comma (s : string) :
  s <> EmptyString ->
  exists tree,
    Greeting.render {| subjectName := Some s |} = inr tree
    /\ elements tree = [tree]
    /\ textNodes tree = ["Hello "; s; "!"]
    /\ textContent tree = "Hello " +:+ s +:+ "!"
    /\ textContent tree <> "Hello, " +:+ s +:+ "!".
Proof.
  intros Hne. eexists. split; [apply render_HelloPerson|].
  destruct s as [|c0 s0]; [contradiction|].
  split; [reflexivity|]. split; [reflexivity|]. split; [reflexivity|].
  simpl. discriminate.
Qed.

Lemma C3_HelloPerson_text_without_comma_witness :
  "Bob" <> EmptyString
  /\ exists tree,
       Greeting.render {| subjectName := Some "Bob" |} = inr tree
       /\ elements tree = [tree]
       /\ textNodes tree = ["Hello "; "Bob"; "!"]
       /\ textContent tree = "Hello " +:+ "Bob" +:+ "!"
       /\ textContent tree <> "Hello, " +:+ "Bob" +:+ "!".
Proof.
  split; [discriminate|].
  apply (C3_HelloPerson_text_without_comma "Bob"). discriminate.
Defined.

(** C6: on its declared domain (subjectName unset, or a non-empty
    string) the render operation raises no error: it returns a tree. *)
Theorem C6_render_total_on_domain (r : GreetingRequest) :
  inDomain r -> exists tree, Greeting.render r = inr tree.
Proof.
  intros _. destruct r as [[n|]]; eexists.
  - apply render_HelloPerson.
  - reflexivity.
Qed.

Lemma C6_render_total_on_domain_witness :
  inDomain {| subjectName := Some "Alice" |}
  /\ exists tree, Greeting.render {| subjectName := Some "Alice" |} = inr tree.
Proof.
  assert (Hdom : inDomain {| subjectName := Some "Alice" |}) by (simpl; discriminate).
  split; [exact Hdom|].
  exact (C6_render_total_on_domain {| subjectName := Some "Alice" |} Hdom).
Defined.

(** ** Facts about the harness *)

Section HarnessFacts.

Import Harness.

Lemma render_mounts (r : GreetingRequest) (tree : Node) (d : Document) :
  Greeting.render r = inr tree ->
  Harness.render (ui r).1 (ui r).2 d
  = (inr (nextHandle d),
     {| attached := <[ nextHandle d := tree ]> (attached d);
        nextHandle := S (nextHandle d) |}).
Proof.
  intros Hr. unfold Harness.render.
  change (renderElement (ui r).1 (ui r).2) with (Greeting.render r).
  rewrite Hr. reflexivity.
Qed.

Lemma render_attaches (r : GreetingRequest) (tree : Node) (d : Document) :
  Greeting.render r = inr tree ->
  attached (after (Harness.render (ui r).1 (ui r).2) d) !! nextHandle d = Some tree.
Proof.
  intros Hr. unfold after. rewrite (render_mounts r tree d Hr). simpl.
  apply lookup_insert_eq.
Qed.

Lemma unmount_all_attached (hs : list nat) (d : Document) :
  attached (fold_right (fun h d' => after (unmount h) d') d hs)
  = fold_right delete (attached d) hs.
Proof.
  induction hs as [|h hs IH]; simpl; [reflexivity|].
  now rewrite IH.
Qed.

Lemma unmount_all_nextHandle (hs : list nat) (d : Document) :
  nextHandle (fold_right (fun h d' => after (unmount h) d') d hs) = nextHandle d.
Proof.
  induction hs as [|h hs IH]; simpl; [reflexivity | exact IH].
Qed.

Lemma lookup_delete_all (m : gmap nat Node) (ks : list nat) (k : nat) :
  fold_right delete m ks !! k = if decide (k ∈ ks) then None else m !! k.
Proof.
  induction ks as [|a ks IH]; simpl.
  - destruct (decide (k ∈ [])) as [Hin|]; [|reflexivity].
    apply elem_of_nil in Hin. contradiction.
  - rewrite lookup_delete. destruct (decide (a = k)) as [->|Hne].
    + destruct (decide (k ∈ k :: ks)) as [|Hn]; [reflexivity|].
      exfalso. apply Hn. apply elem_of_cons. now left.
    + rewrite IH. destruct (decide (k ∈ ks)) as [Hin|Hnin].
      * destruct (decide (k ∈ a :: ks)) as [|Hn]; [reflexivity|].
        exfalso. apply Hn. apply elem_of_cons. now right.
      * destruct (decide (k ∈ a :: ks)) as [Hin|]; [|reflexivity].
        apply elem_of_cons in Hin as [->|Hin]; contradiction.
Qed.

Lemma cleanup_detaches_everything (d : Document) :
  after cleanup d = {| attached := ∅; nextHandle := nextHandle d |}.
Proof.
  set (hs := map fst (map_to_list (attached d))).
  change (after cleanup d)
    with (fold_right (fun h d' => after (unmount h) d') d hs).
  assert (Hatt : attached (fold_right (fun h d' => after (unmount h) d') d hs) = ∅).
  { rewrite (unmount_all_attached hs d). apply map_eq. intros k.
    rewrite lookup_delete_all, lookup_empty.
    destruct (decide (k ∈ hs)) as [|Hnin]; [reflexivity|].
    destruct (attached d !! k) as [v|] eqn:Hk; [|reflexivity].
    exfalso. apply Hnin. unfold hs. apply list_elem_of_In, in_map_iff.
    exists (k, v). split; [reflexivity|].
    apply list_elem_of_In, elem_of_map_to_list, Hk. }
  pose proof (unmount_all_nextHandle hs d) as Hnext.
  destruct (fold_right _ d hs) as [att nxt]. simpl in *. now subst.
Qed.

Lemma getByText_outcomes (p : pattern) (roots : list Node) :
  (getByText p roots = inl NotFoundError <-> length (queryAllByText p roots) = 0)
  /\ (getByText p roots = inl AmbiguousMatchError <-> 1 < length (queryAllByText p roots))
  /\ (forall n, getByText p roots = inr n <-> queryAllByText p roots = [n]).
Proof.
  unfold getByText.
  destruct (queryAllByText p roots) as [|a [|b l]]; simpl.
  - repeat split; intros; try discriminate; try lia; try reflexivity.
  - repeat split; intros; try discriminate; try lia; congruence.
  - repeat split; intros; try discriminate; try lia; reflexivity.
Qed.


End HarnessFacts.

(** ** The expression matcher is sound and complete *)

Section RegExpFacts.

Import RegExp.

Variable i : bool.

Lemma append_empty (s1 s2 : string) :
  s1 +:+ s2 = EmptyString -> s1 = EmptyString /\ s2 = EmptyString.
Proof. destruct s1; simpl; [auto | discriminate]. Qed.

Lemma nullable_accepts (r : regex) :
  nullable r = true <-> accepts i r EmptyString.
Proof.
  split.
  - induction r as [| | a | | r1 IH1 r2 IH2 | r1 IH1 r2 IH2 | r1 IH1]; simpl;
      try discriminate; intros H.
    + constructor.
    + apply andb_true_iff in H as [H1 H2].
      change EmptyString with (EmptyString +:+ EmptyString). constructor; auto.
    + apply orb_true_iff in H as [H|H]; [apply accepts_Alt_l | apply accepts_Alt_r]; auto.
    + constructor.
  - intros H. remember EmptyString as s eqn:Hs.
    induction H as [| a c Hc | c | r1 r2 s1 s2 H1 IH1 H2 IH2
                    | r1 r2 s H IH | r1 r2 s H IH | r | r s1 s2 H1 IH1 H2 IH2];
      simpl; try discriminate; try reflexivity.
    + apply append_empty in Hs as [-> ->]. now rewrite IH1, IH2.
    + now rewrite IH.
    + rewrite IH by assumption. apply orb_true_r.
Qed.

Lemma deriv_sound (c : ascii) (r : regex) :
  forall s, accepts i (deriv i c r) s -> accepts i r (String c s).
Proof.
  induction r as [| | a | | r1 IH1 r2 IH2 | r1 IH1 r2 IH2 | r1 IH1];
    simpl; intros s H.
  - inversion H.
  - inversion H.
  - destruct (sameChar i a c) eqn:Hc; inversion H; subst. now constructor.
  - inversion H; subst. constructor.
  - destruct (nullable r1) eqn:Hn.
    + inversion H as [| | | | ? ? ? Hl | ? ? ? Hr | |]; subst.
      * inversion Hl as [| | | ? ? s1 s2 Ha Hb | | | |]; subst.
        change (String c (s1 +:+ s2)) with (String c s1 +:+ s2).
        constructor; auto.
      * change (String c s) with (EmptyString +:+ String c s).
        constructor; [now apply nullable_accepts | auto].
    + inversion H as [| | | ? ? s1 s2 Ha Hb | | | |]; subst.
      change (String c (s1 +:+ s2)) with (String c s1 +:+ s2).
      constructor; auto.
  - inversion H; subst; [apply accepts_Alt_l | apply accepts_Alt_r]; auto.
  - inversion H as [| | | ? ? s1 s2 Ha Hb | | | |]; subst.
    change (String c (s1 +:+ s2)) with (String c s1 +:+ s2).
    constructor; auto.
Qed.

Lemma deriv_complete (c : ascii) (r : regex) (s' : string) :
  accepts i r s' -> forall s, s' = String c s -> accepts i (deriv i c r) s.
Proof.
  induction 1 as [| a c0 Hc | c0 | r1 r2 s1 s2 H1 IH1 H2 IH2
                  | r1 r2 s0 H IH | r1 r2 s0 H IH | r | r s1 s2 H1 IH1 H2 IH2];
    intros s Hs; simpl; try discriminate.
  - injection Hs as -> <-. rewrite Hc. constructor.
  - injection Hs as -> <-. constructor.
  - destruct s1 as [|x s1]; simpl in Hs.
    + apply nullable_accepts in H1. rewrite H1.
      apply accepts_Alt_r. now apply IH2.
    + injection Hs as -> <-.
      destruct (nullable r1); [apply accepts_Alt_l|]; constructor; auto.
  - apply accepts_Alt_l. now apply IH.
  - apply accepts_Alt_r. now apply IH.
  - destruct s1 as [|x s1]; simpl in Hs.
    + now apply IH2.
    + injection Hs as -> <-. constructor; auto.
Qed.

Lemma fullMatch_accepts (s : string) :
  forall r, fullMatch i r s = true <-> accepts i r s.
Proof.
  induction s as [|c s IH]; intros r; simpl.
  - apply nullable_accepts.
  - rewrite IH. split.
    + apply deriv_sound.
    + intros H. now apply (deriv_complete c r (String c s)).
Qed.

Lemma accepts_anything (s : string) : accepts i (Star Any) s.
Proof.
  induction s as [|c s IH]; [constructor|].
  change (String c s) with (String c EmptyString +:+ s).
  constructor; [constructor | exact IH].
Qed.

(** [test] holds exactly when some substring of the text is accepted. *)
Lemma test_accepts (r : regex) (s : string) :
  test i r s = true
  <-> exists pre m post, s = pre +:+ m +:+ post /\ accepts i r m.
Proof.
  unfold test. rewrite fullMatch_accepts. split.
  - intros H.
    inversion H as [| | | ? ? pre rest _ Hrest | | | |]; subst.
    inversion Hrest as [| | | ? ? m post Hm _ | | | |]; subst.
    now exists pre, m, post.
  - intros (pre & m & post & -> & Hm).
    constructor; [apply accepts_anything|].
    constructor; [exact Hm | apply accepts_anything].
Qed.

End RegExpFacts.

(** ** Substrings *)

Section Substrings.

Import Str.

Lemma prefix_true (n s : string) :
  String.prefix n s = true <-> exists post, s = n +:+ post.
Proof.
  split.
  - revert n. induction s as [|y s IH]; intros [|x n]; simpl; try discriminate.
    + now exists EmptyString.
    + now exists (String y s).
    + destruct (ascii_dec x y) as [->|]; [|discriminate].
      intros H. apply IH in H as [post ->]. now exists post.
  - intros [post ->]. apply prefix_app.
Qed.

Lemma includes_true (n s : string) :
  includes n s = true <-> exists pre post, s = pre +:+ n +:+ post.
Proof.
  unfold includes. rewrite negb_true_iff, Nat.eqb_neq. split.
  - induction s as [|y s IH]; cbn [occurrences]; intros H.
    + destruct (String.prefix n EmptyString) eqn:Hp; [|lia].
      apply prefix_true in Hp as [post Hp]. now exists EmptyString, post.
    + destruct (String.prefix n (String y s)) eqn:Hp.
      * apply prefix_true in Hp as [post Hp]. now exists EmptyString, post.
      * destruct IH as (pre & post & ->); [lia|]. now exists (String y pre), post.
  - intros (pre & post & ->). induction pre as [|y pre IH].
    + change (EmptyString +:+ n +:+ post) with (n +:+ post).
      assert (Hp : String.prefix n (n +:+ post) = true) by apply prefix_app.
      destruct (n +:+ post); cbn [occurrences]; rewrite Hp; lia.
    + change (String y pre +:+ n +:+ post) with (String y (pre +:+ n +:+ post)).
      cbn [occurrences]. lia.
Qed.

End Substrings.

(** ** Case folding, literal expressions and the nodes of a tree *)

Section CaseFolding.

Import Str RegExp.

Lemma every_ascii (P : ascii -> bool) :
  forallb P (map ascii_of_nat (seq 0 256)) = true -> forall a, P a = true.
Proof.
  intros H a. rewrite forallb_forall in H. apply H.
  apply in_map_iff. exists (nat_of_ascii a). split; [apply ascii_nat_embedding|].
  apply in_seq. pose proof (nat_ascii_bounded a). lia.
Qed.

Lemma sameLetterb_true (a c : ascii) : sameLetterb a c = true <-> sameLetter a c.
Proof.
  unfold sameLetterb, sameLetter. rewrite orb_true_iff, Ascii.eqb_eq, existsb_exists.
  split.
  - intros [H|([u l] & Hin & H)]; [now left | right].
    cbn [fst snd] in H. rewrite orb_true_iff, !andb_true_iff, !Ascii.eqb_eq in H.
    destruct H as [[-> ->]|[-> ->]]; [now left | now right].
  - intros [H|[H|H]]; [now left | right | right].
    + exists (a, c). split; [exact H|]. cbn [fst snd].
      now rewrite !Ascii.eqb_refl.
    + exists (c, a). split; [exact H|]. cbn [fst snd].
      rewrite !Ascii.eqb_refl. apply orb_true_r.
Qed.

(** The lower-casing function folds the letters A to Z and nothing else. *)
Lemma toLower_sameLetter (a c : ascii) :
  toLower a = toLower c <-> sameLetter a c.
Proof.
  rewrite <- sameLetterb_true, <- Ascii.eqb_eq.
  assert (Hall : forallb
                   (fun x => forallb
                               (fun y => Bool.eqb (Ascii.eqb (toLower x) (toLower y))
                                                  (sameLetterb x y))
                               (map ascii_of_nat (seq 0 256)))
                   (map ascii_of_nat (seq 0 256)) = true)
    by (vm_compute; reflexivity).
  pose proof (every_ascii _ (every_ascii _ Hall a) c) as H.
  apply Bool.eqb_prop in H. now rewrite H.
Qed.

Lemma toLowerCase_sameUpToCase (s t : string) :
  toLowerCase s = toLowerCase t <-> sameUpToCase s t.
Proof.
  revert t. induction s as [|a s IH]; intros [|c t]; simpl; try easy.
  rewrite <- IH, <- toLower_sameLetter. split.
  - now intros [= -> ->].
  - now intros [-> ->].
Qed.

Lemma toLowerCase_app (a b : string) :
  toLowerCase (a +:+ b) = toLowerCase a +:+ toLowerCase b.
Proof. induction a as [|x a IH]; simpl; [reflexivity | now rewrite IH]. Qed.

Lemma toLowerCase_split (t a b : string) :
  toLowerCase t = a +:+ b ->
  exists ta tb, t = ta +:+ tb /\ toLowerCase ta = a /\ toLowerCase tb = b.
Proof.
  revert t. induction a as [|x a IH]; intros t H.
  - now exists EmptyString, t.
  - destruct t as [|y t]; simpl in H; [discriminate|].
    injection H as Hx H. destruct (IH t H) as (ta & tb & -> & Ha & Hb).
    exists (String y ta), tb. simpl. now rewrite Hx, Ha.
Qed.

Lemma sameChar_true (i : bool) (a c : ascii) :
  sameChar i a c = true <-> (if i then toLower a = toLower c else a = c).
Proof. unfold sameChar. destruct i; apply Ascii.eqb_eq. Qed.

(** A run of literal characters accepts the text equal to it, up to case
    under the flag. *)
Lemma accepts_lit (i : bool) (s : string) :
  forall m, accepts i (lit s) m
            <-> (if i then toLowerCase m = toLowerCase s else m = s).
Proof.
  induction s as [|a s IH]; intros m; simpl; split.
  - intros H. inversion H; subst. now destruct i.
  - intros H. assert (m = EmptyString) as ->.
    { destruct i; [destruct m; [reflexivity | discriminate] | exact H]. }
    constructor.
  - intros H. inversion H as [| | | ? ? s1 s2 H1 H2 | | | |]; subst.
    inversion H1 as [| ? c Hc | | | | | |]; subst.
    apply IH in H2. apply sameChar_true in Hc.
    change (String c EmptyString +:+ s2) with (String c s2).
    destruct i; simpl in *; congruence.
  - intros H. destruct m as [|c m].
    { destruct i; discriminate. }
    change (String c m) with (String c EmptyString +:+ m).
    constructor.
    + constructor. apply sameChar_true. destruct i; simpl in H; congruence.
    + apply IH. destruct i; simpl in H; congruence.
Qed.

(** A text includes the characters of [s] up to case exactly when one of
    its parts differs from [s] at most in the case of letters. *)
Lemma includes_up_to_case (s t : string) :
  includes (toLowerCase s) (toLowerCase t) = true
  <-> exists pre m post, t = pre +:+ m +:+ post /\ sameUpToCase m s.
Proof.
  rewrite includes_true. split.
  - intros (pre & post & H).
    apply toLowerCase_split in H as (tp & rest & -> & _ & H).
    apply toLowerCase_split in H as (tm & tq & -> & Hm & _).
    exists tp, tm, tq. split; [reflexivity|]. now apply toLowerCase_sameUpToCase.
  - intros (pre & m & post & -> & Hm). apply toLowerCase_sameUpToCase in Hm.
    exists (toLowerCase pre), (toLowerCase post).
    now rewrite !toLowerCase_app, Hm.
Qed.

(** An expression of literal characters matches the texts that include
    the characters: as they are, or up to case under the flag. *)
Lemma literal_expression_includes (s t : string) :
  test true (lit s) t = includes (toLowerCase s) (toLowerCase t)
  /\ test false (lit s) t = includes s t.
Proof.
  split; apply Bool.eq_iff_eq_true.
  - rewrite test_accepts, includes_up_to_case. split.
    + intros (pre & m & post & -> & Hm). apply accepts_lit in Hm.
      exists pre, m, post. split; [reflexivity|]. now apply toLowerCase_sameUpToCase.
    + intros (pre & m & post & -> & Hm). exists pre, m, post.
      split; [reflexivity|]. apply accepts_lit. now apply toLowerCase_sameUpToCase.
  - rewrite test_accepts, includes_true. split.
    + intros (pre & m & post & -> & Hm). apply accepts_lit in Hm. subst m.
      now exists pre, post.
    + intros (pre & post & ->). exists pre, s, post.
      split; [reflexivity|]. now apply accepts_lit.
Qed.

End CaseFolding.

Section TreeElements.



End TreeElements.

(** ** What the three kinds of pattern match *)

Section Patterns.

Import Harness.





End Patterns.

(** ** The harness: claims C4, C5, C7, C8 *)

Section HarnessClaims.

Import Harness Tests.



(** C5: the hook runs after every test, whatever its outcome, and after
    it nothing is attached to the document: every text query, through any
    handle or through the screen, fails with NotFoundError. *)
Theorem C5_no_tree_survives_hook
    {A : Type} (t : Test A) (d : Document) (h : nat) (p : pattern) :
  let d' := after (runTest t) d in
  result (runTest t) d = result t d
  /\ d' = after afterEachHook (after t d)
  /\ attached d' = ∅
  /\ result (findByText h p) d' = inl (QueryFailed NotFoundError)
  /\ result (screenGetByText p) d' = inl (QueryFailed NotFoundError).
Proof.
  intros d'.
  assert (Hd' : d' = after afterEachHook (after t d)).
  { unfold d', runTest, after. now destruct (t d). }
  assert (Hres : result (runTest t) d = result t d).
  { unfold result, runTest. now destruct (t d). }
  assert (Hempty : attached d' = ∅).
  { rewrite Hd'. unfold afterEachHook. now rewrite cleanup_detaches_everything. }
  repeat split; try assumption.
  - unfold result, findByText. now rewrite Hempty, lookup_empty.
  - unfold result, screenGetByText. now rewrite Hempty, map_to_list_empty.
Qed.

(** C7: unmounting a handle a second time does not fail and leaves the
    document as the first unmount left it. *)
Theorem C7_unmount_idempotent (h : nat) (d : Document) :
  result (unmount h) (after (unmount h) d) = inr tt
  /\ after (unmount h) (after (unmount h) d) = after (unmount h) d
  /\ after (_ ← unmount h; unmount h) d = after (unmount h) d
  /\ result (_ ← unmount h; unmount h) d = inr tt.
Proof.
  assert (Htwice : after (unmount h) (after (unmount h) d) = after (unmount h) d).
  { unfold after, unmount. simpl. f_equal. apply map_eq. intros k.
    rewrite !lookup_delete. now destruct (decide (h = k)). }
  repeat split; try exact Htwice; reflexivity.
Qed.

(** C8: in the tree rendered for "Alice", the expression /Hello,? Alice!/
    has exactly one match, the heading, and a query for "Bob" (as exact
    text, as a substring, or as an expression) fails with NotFoundError;
    the same holds through the screen in a document that held nothing else. *)
Theorem C8_Alice_scenario (d : Document) :
  let r := {| subjectName := Some "Alice" |} in
  let h := nextHandle d in
  let d' := after (Harness.render (ui r).1 (ui r).2) d in
  let helloAlice := Matching (re_Hello_opt_comma "Alice") false in
  exists tree,
    result (Harness.render (ui r).1 (ui r).2) d = inr h
    /\ attached d' !! h = Some tree
    /\ queryAllByText helloAlice [tree] = [tree]
    /\ result (findByText h helloAlice) d' = inr tree
    /\ result (findByText h (Exact "Bob")) d' = inl (QueryFailed NotFoundError)
    /\ result (findByText h (Substring "Bob")) d' = inl (QueryFailed NotFoundError)
    /\ result (findByText h (Matching (RegExp.lit "Bob") false)) d'
       = inl (QueryFailed NotFoundError)
    /\ result (screenGetByText helloAlice)
               (after (Harness.render (ui r).1 (ui r).2) emptyDocument) = inr tree
    /\ result (screenGetByText (Exact "Bob"))
               (after (Harness.render (ui r).1 (ui r).2) emptyDocument)
       = inl (QueryFailed NotFoundError).
Proof.
  intros r h d' helloAlice.
  pose proof (render_HelloPerson "Alice") as Hr. fold r in Hr.
  set (tree := Element "h1" [Text "Hello "; Text "Alice"; Text "!"]) in *.
  exists tree.
  assert (Hh : attached d' !! h = Some tree) by apply (render_attaches r tree d Hr).
  assert (Hq : forall p, result (findByText h p) d'
                         = match getByText p [tree] with
                           | inl e => inl (QueryFailed e)
                           | inr n => inr n
                           end).
  { intros p. unfold result, findByText. rewrite Hh.
    now destruct (getByText p [tree]). }
  split.
  { unfold result. now rewrite (render_mounts r tree d Hr). }
  split; [exact Hh|].
  split; [vm_compute; reflexivity|].
  rewrite !Hq.
  repeat split; vm_compute; reflexivity.
Qed.

End HarnessClaims.

(** ** Determinism and the empty name: claims C9, C10 *)

Section RendererClaims.

(** C9: the tree rendered for a request is a function of its subjectName
    alone: two requests with the same subjectName render the same tree,
    HelloPerson gives the same result on props that agree on the name,
    whatever else they carry, and HelloWorld gives the same result on all
    props. *)
Theorem C9_render_deterministic
    (r1 r2 : GreetingRequest) (p1 p2 : gmap string value) :
  subjectName r1 = subjectName r2 ->
  p1 !! "name" = p2 !! "name" ->
  Greeting.render r1 = Greeting.render r2
  /\ renderElement HelloPerson p1 = renderElement HelloPerson p2
  /\ renderElement HelloWorld p1 = renderElement HelloWorld p2.
Proof.
  intros Hsubject Hname. split; [|split].
  - unfold Greeting.render, ui. now rewrite Hsubject.
  - unfold renderElement, HelloPerson, get. now rewrite Hname.
  - reflexivity.
Qed.

Lemma C9_render_deterministic_witness :
  let r := {| subjectName := Some "Bob" |} in
  let p1 : gmap string value := {[ "name" := VStr "Bob" ]} in
  let p2 : gmap string value :=
    <[ "firstName" := VStr "Alice" ]> {[ "name" := VStr "Bob" ]} in
  subjectName r = subjectName r
  /\ p1 !! "name" = p2 !! "name"
  /\ renderElement HelloPerson p1 = renderElement HelloPerson p2.
Proof.
  intros r p1 p2.
  assert (Hname : p1 !! "name" = p2 !! "name") by (vm_compute; reflexivity).
  split; [reflexivity|]. split; [exact Hname|].
  exact (proj1 (proj2 (C9_render_deterministic r r p1 p2 eq_refl Hname))).
Defined.

(** C10: the renderer is total over all strings: for every name, empty
    or not, it returns a tree whose text is "Hello " followed by the name
    and "!"; for the empty name the heading holds the two text nodes
    "Hello " and "!" with nothing between them. *)
Theorem C10_render_total_on_strings :
  Greeting.render {| subjectName := Some EmptyString |}
  = inr (Element "h1" [Text "Hello "; Text "!"])
  /\ textContent (Element "h1" [Text "Hello "; Text "!"]) = "Hello !"
  /\ (forall s, exists tree,
        Greeting.render {| subjectName := Some s |} = inr tree
        /\ textContent tree = "Hello " +:+ s +:+ "!").
Proof.
  split; [apply (render_HelloPerson EmptyString)|].
  split; [reflexivity|].
  intros s. eexists. split; [apply render_HelloPerson|].
  destruct s; reflexivity.
Qed.

End RendererClaims.

(** ** The tests of the sources, run *)

Section TestRuns.

Import Harness Tests.

(** The test of the HelloWorld test file passes, and the hook leaves the
    document empty for the next test. *)
Lemma test_HelloWorld_passes :
  result (runTest test_HelloWorld) emptyDocument = inr tt
  /\ attached (after (runTest test_HelloWorld) emptyDocument) = ∅.
Proof. split; vm_compute; reflexivity. Qed.

(** The tests of [HelloPerson.test.jsx] pass the name as [firstName]; the
    HelloPerson of the README reads [name], so that what it shows them is
    "Hello !", and both tests fail at their query. *)
Lemma README_HelloPerson_fails_test_file :
  (exists tree,
     renderElement HelloPerson {[ "firstName" := VStr "Alice" ]} = inr tree
     /\ textContent tree = "Hello !")
  /\ result (runTest (test_say_hi_to_Bob HelloPerson)) emptyDocument
     = inl (QueryFailed NotFoundError)
  /\ result (runTest (test_say_hi_to_Alice HelloPerson)) emptyDocument
     = inl (QueryFailed NotFoundError).
Proof. split; [eexists|]; repeat split; vm_compute; reflexivity. Qed.

(** The tree mounted for a request does not depend on what the document
    held before, and mounting never fails. *)
Lemma render_mounts_same_tree (s : option string) (d1 d2 : Document) :
  let r := {| subjectName := s |} in
  exists tree,
    Greeting.render r = inr tree
    /\ result (Harness.render (ui r).1 (ui r).2) d1 = inr (nextHandle d1)
    /\ attached (after (Harness.render (ui r).1 (ui r).2) d1) !! nextHandle d1
       = Some tree
    /\ attached (after (Harness.render (ui r).1 (ui r).2) d2) !! nextHandle d2
       = Some tree.
Proof.
  intros r.
  assert (Hr : exists tree, Greeting.render r = inr tree).
  { destruct s as [n|]; eexists; [apply render_HelloPerson | reflexivity]. }
  destruct Hr as [tree Hr]. exists tree.
  split; [exact Hr|]. split.
  - unfold result. now rewrite (render_mounts r tree d1 Hr).
  - split; now apply render_attaches.
Qed.

End TestRuns.

(** * Further properties of the components *)

Section ComponentFacts.

Lemma append_tail_inj (n m : string) (c : ascii) :
  n +:+ String c EmptyString = m +:+ String c EmptyString -> n = m.
Proof.
  revert m. induction n as [|a n IH]; intros [|b m]; simpl; intros H.
  - reflexivity.
  - injection H as _ H. destruct m; discriminate.
  - injection H as _ H. destruct n; discriminate.
  - injection H as -> H. f_equal. now apply IH.
Qed.

(** X1: when its name prop shows nothing, being missing, [undefined],
    [null], a boolean or the empty string, HelloPerson shows "Hello !":
    the heading with the two text nodes "Hello " and "!", the tree it
    renders for the empty name; the other props do not matter. *)
Theorem X1_HelloPerson_without_name (p : gmap string value) :
  showsNothing (get p "name") = true ->
  renderElement HelloPerson p = inr (Element "h1" [Text "Hello "; Text "!"])
  /\ renderElement HelloPerson p
     = Greeting.render {| subjectName := Some EmptyString |}.
Proof.
  intros H. rewrite render_HelloPerson.
  unfold renderElement, HelloPerson, createDom. cbn [children type renderChildren].
  destruct (get p "name") as [| | b | [|c s] |]; simpl in *;
    try discriminate; split; reflexivity.
Qed.

Lemma X1_HelloPerson_without_name_witness :
  let p : gmap string value := {[ "firstName" := VStr "Bob" ]} in
  showsNothing (get p "name") = true
  /\ renderElement HelloPerson p = inr (Element "h1" [Text "Hello "; Text "!"]).
Proof.
  intros p.
  assert (H : showsNothing (get p "name") = true) by (vm_compute; reflexivity).
  split; [exact H|].
  exact (proj1 (X1_HelloPerson_without_name p H)).
Defined.

(** X2: a plain object as the name prop makes rendering HelloPerson
    throw, whatever the other props are; HelloWorld renders its heading
    on the same props, which it does not read. *)
Theorem X2_object_name_throws (p : gmap string value) :
  p !! "name" = Some VObj ->
  renderElement HelloPerson p = inl InvalidChild
  /\ renderElement HelloWorld p = inr (Element "h1" [Text "Hello World!"]).
Proof.
  intros H. split; [|reflexivity].
  unfold renderElement, HelloPerson, createDom, get. now rewrite H.
Qed.

Lemma X2_object_name_throws_witness :
  let p : gmap string value := <[ "firstName" := VStr "Bob" ]> {[ "name" := VObj ]} in
  p !! "name" = Some VObj
  /\ renderElement HelloPerson p = inl InvalidChild.
Proof.
  intros p.
  assert (H : p !! "name" = Some VObj) by (vm_compute; reflexivity).
  split; [exact H|].
  exact (proj1 (X2_object_name_throws p H)).
Defined.

(** X3: the greeting determines the name: two names whose rendered texts
    are equal are the same name. *)
Theorem X3_greeting_determines_name (n m : string) (tn tm : Node) :
  Greeting.render {| subjectName := Some n |} = inr tn ->
  Greeting.render {| subjectName := Some m |} = inr tm ->
  textContent tn = textContent tm ->
  n = m.
Proof.
  intros Hn Hm Htext.
  rewrite (HelloPerson_textContent n tn Hn), (HelloPerson_textContent m tm Hm) in Htext.
  simpl in Htext. injection Htext as Htext. now apply append_tail_inj in Htext.
Qed.

Lemma X3_greeting_determines_name_witness :
  let tree := Element "h1" [Text "Hello "; Text "Bob"; Text "!"] in
  Greeting.render {| subjectName := Some "Bob" |} = inr tree
  /\ textContent tree = textContent tree
  /\ "Bob" = "Bob".
Proof.
  intros tree.
  assert (Hr : Greeting.render {| subjectName := Some "Bob" |} = inr tree)
    by (vm_compute; reflexivity).
  split; [exact Hr|]. split; [reflexivity|].
  exact (X3_greeting_determines_name "Bob" "Bob" tree tree Hr Hr eq_refl).
Defined.

(** X4: HelloPerson shows the text of HelloWorld exactly for the name
    "World"; the two trees differ for every name, as HelloWorld has its
    text in one node and HelloPerson in two or three. *)
Theorem X4_HelloPerson_meets_HelloWorld (n : string) (tn tw : Node) :
  Greeting.render {| subjectName := Some n |} = inr tn ->
  Greeting.render {| subjectName := None |} = inr tw ->
  (textContent tn = textContent tw <-> n = "World")
  /\ tn <> tw
  /\ length (textNodes tw) = 1
  /\ 2 <= length (textNodes tn) <= 3.
Proof.
  intros Hn Hw. rewrite (HelloPerson_textContent n tn Hn).
  rewrite render_HelloPerson in Hn. injection Hn as <-.
  injection Hw as <-. split; [|split; [|split]].
  - simpl. split.
    + intros H. injection H as H.
      now apply (append_tail_inj n "World" "!") in H.
    + now intros ->.
  - destruct n; discriminate.
  - reflexivity.
  - destruct n; simpl; lia.
Qed.

Lemma X4_HelloPerson_meets_HelloWorld_witness :
  let tn := Element "h1" [Text "Hello "; Text "World"; Text "!"] in
  let tw := Element "h1" [Text "Hello World!"] in
  Greeting.render {| subjectName := Some "World" |} = inr tn
  /\ Greeting.render {| subjectName := None |} = inr tw
  /\ textContent tn = textContent tw
  /\ tn <> tw.
Proof.
  intros tn tw.
  assert (Hn : Greeting.render {| subjectName := Some "World" |} = inr tn)
    by (vm_compute; reflexivity).
  assert (Hw : Greeting.render {| subjectName := None |} = inr tw) by reflexivity.
  pose proof (X4_HelloPerson_meets_HelloWorld "World" tn tw Hn Hw) as (Hiff & Hne & _).
  split; [exact Hn|]. split; [exact Hw|]. split; [|exact Hne].
  apply Hiff. reflexivity.
Defined.

(** X11: for every request, with the name unset or any string, the
    tree rendered is a single heading whose own text is all of its
    visible text; a query by text on it therefore returns the heading
    when the pattern matches the visible text, fails with NotFoundError
    when it does not, and never fails with AmbiguousMatchError. *)
Theorem X11_single_heading (r : GreetingRequest) (tree : Node) :
  Greeting.render r = inr tree ->
  elements tree = [tree]
  /\ ownText tree = textContent tree
  /\ forall pat,
       Harness.getByText pat [tree]
       = if Harness.matchesText pat (textContent tree)
         then inr tree else inl Harness.NotFoundError.
Proof.
  intros Hr.
  assert (Hflat : elements tree = [tree] /\ ownText tree = textContent tree).
  { destruct r as [[n|]].
    - rewrite render_HelloPerson in Hr. injection Hr as <-.
      destruct n; split; reflexivity.
    - injection Hr as <-. split; reflexivity. }
  destruct Hflat as [Hel Hown]. split; [exact Hel|]. split; [exact Hown|].
  intros pat. unfold Harness.getByText, Harness.queryAllByText.
  cbn [flat_map]. rewrite app_nil_r, Hel. cbn [List.filter]. rewrite Hown.
  now destruct (Harness.matchesText pat (textContent tree)).
Qed.

Lemma X11_single_heading_witness :
  let r := {| subjectName := Some "Alice" |} in
  let tree := Element "h1" [Text "Hello "; Text "Alice"; Text "!"] in
  Greeting.render r = inr tree
  /\ elements tree = [tree]
  /\ ownText tree = textContent tree.
Proof.
  intros r tree.
  assert (Hr : Greeting.render r = inr tree) by (vm_compute; reflexivity).
  split; [exact Hr|].
  pose proof (X11_single_heading r tree Hr) as (Hel & Hown & _).
  split; [exact Hel | exact Hown].
Defined.

End ComponentFacts.

(** * Further properties of the queries *)

(** ** The scripts of the test files *)

Section Scripts.

Import Harness Tests.

Lemma nodeEqb_refl : forall n : Node, nodeEqb n n = true.
Proof.
  fix IH 1. intros [s|t cs]; simpl.
  - apply String.eqb_refl.
  - rewrite String.eqb_refl. simpl.
    induction cs as [|c cs IHcs]; [reflexivity|].
    now rewrite IH, IHcs.
Qed.

Lemma found_among_elements (p : pattern) (roots : list Node) (n : Node) :
  getByText p roots = inr n ->
  existsb (nodeEqb n) (flat_map elements roots) = true.
Proof.
  intros H. apply getByText_outcomes in H.
  assert (Hin : In n (queryAllByText p roots)) by (rewrite H; now left).
  unfold queryAllByText in Hin. apply filter_In in Hin as [Hin _].
  apply existsb_exists. exists n. split; [exact Hin | apply nodeEqb_refl].
Qed.

Lemma screen_of_single_tree (h : nat) (tree : Node) :
  map snd (map_to_list (<[ h := tree ]> (∅ : gmap nat Node))) = [tree].
Proof. now rewrite insert_empty, map_to_list_singleton. Qed.

(** What a script of the shape render, query, expect returns in a
    document that has nothing attached. *)
Lemma script_result (C : component) (props : gmap string value)
    (p : pattern) (d : Document) :
  attached d = ∅ ->
  result (_ ← Harness.render C props;
          found ← screenGetByText p;
          expectToBeInTheDocument found) d
  = match renderElement C props with
    | inl e => inl (Thrown e)
    | inr tree =>
        match getByText p [tree] with
        | inl e => inl (QueryFailed e)
        | inr _ => inr tt
        end
    end.
Proof.
  intros Hd. unfold result, mbind, Test_bind, bind, Harness.render.
  destruct (renderElement C props) as [e|tree]; [reflexivity|].
  unfold mount, screenGetByText, expectToBeInTheDocument. cbn [attached].
  rewrite Hd, screen_of_single_tree.
  destruct (getByText p [tree]) as [e|n] eqn:Hq; [reflexivity|].
  cbn [attached]. rewrite screen_of_single_tree.
  now rewrite (found_among_elements p [tree] n Hq).
Qed.

(** X6: a node that a query returned is in the document: the
    expectation [toBeInTheDocument] on the result of [screen.getByText],
    or of the query of a handle, never fails, and the document is left
    as it was. *)
Theorem X6_expectation_after_query_passes
    (d : Document) (h : nat) (p : pattern) (n : Node) :
  result (screenGetByText p) d = inr n \/ result (findByText h p) d = inr n ->
  expectToBeInTheDocument n d = (inr tt, d).
Proof.
  intros H. unfold expectToBeInTheDocument.
  enough (Hex : existsb (nodeEqb n)
                  (flat_map elements (map snd (map_to_list (attached d)))) = true)
    by now rewrite Hex.
  destruct H as [H|H].
  - unfold result, screenGetByText in H.
    destruct (getByText p _) as [e|n'] eqn:Hq; [discriminate|].
    injection H as ->. exact (found_among_elements p _ n Hq).
  - unfold result, findByText in H.
    destruct (attached d !! h) as [tree|] eqn:Hh; [|discriminate].
    destruct (getByText p [tree]) as [e|n'] eqn:Hq; [discriminate|].
    injection H as ->.
    apply found_among_elements, existsb_exists in Hq as (x & Hin & Hx).
    apply existsb_exists. exists x. split; [|exact Hx].
    simpl in Hin. rewrite app_nil_r in Hin.
    apply in_flat_map. exists tree. split; [|exact Hin].
    apply in_map_iff. exists (h, tree). split; [reflexivity|].
    apply list_elem_of_In, elem_of_map_to_list, Hh.
Qed.

Lemma X6_expectation_after_query_passes_witness :
  let tree := Element "h1" [Text "Hello World!"] in
  let d := after (mount tree) emptyDocument in
  (result (screenGetByText (Exact "Hello World!")) d = inr tree
   \/ result (findByText 0 (Exact "Hello World!")) d = inr tree)
  /\ expectToBeInTheDocument tree d = (inr tt, d).
Proof.
  intros tree d.
  assert (H : result (screenGetByText (Exact "Hello World!")) d = inr tree
              \/ result (findByText 0 (Exact "Hello World!")) d = inr tree)
    by (left; vm_compute; reflexivity).
  split; [exact H|].
  exact (X6_expectation_after_query_passes d 0 (Exact "Hello World!") tree H).
Defined.

(** X5: in a document with nothing attached, the test of the README's
    HelloPerson listing, at a name and an expected text, passes exactly
    when the expected text is "Hello ", the name and "!"; the two tests
    listed, for "Alice" and for "Bob", are such. The name is taken free
    of white space, so that the heading's text is compared as it stands. *)
Theorem X5_README_test_accepts_template (name expected : string) (d : Document) :
  Str.noWhiteSpace name = true ->
  attached d = ∅ ->
  (result (test_name_displayed name expected) d = inr tt
   <-> expected = "Hello " +:+ name +:+ "!")
  /\ result test_README_Alice d = inr tt
  /\ result test_README_Bob d = inr tt.
Proof.
  intros _ Hd.
  assert (Hgen : forall nm ex,
             result (test_name_displayed nm ex) d = inr tt
             <-> ex = "Hello " +:+ nm +:+ "!").
  { intros nm ex. unfold test_name_displayed. rewrite (script_result _ _ _ d Hd).
    change (renderElement HelloPerson {[ "name" := VStr nm ]})
      with (Greeting.render {| subjectName := Some nm |}).
    rewrite render_HelloPerson.
    unfold getByText, queryAllByText. cbn [flat_map elements app List.filter].
    assert (Hown : forall cs,
               cs = match nm with
                    | EmptyString => [Text "Hello "; Text "!"]
                    | String _ _ => [Text "Hello "; Text nm; Text "!"]
                    end ->
               ownText (Element "h1" cs) = "Hello " +:+ nm +:+ "!").
    { intros cs ->. destruct nm; reflexivity. }
    rewrite app_nil_r. cbn [flat_map app List.filter].
    assert (Hnone : flat_map elements
                      (match nm with
                       | EmptyString => [Text "Hello "; Text "!"]
                       | String _ _ => [Text "Hello "; Text nm; Text "!"]
                       end) = []) by (destruct nm; reflexivity).
    rewrite Hnone. cbn [List.filter matchesText].
    rewrite (Hown _ eq_refl).
    destruct (String.eqb_spec ("Hello " +:+ nm +:+ "!") ex) as [<-|Hne].
    - split; reflexivity.
    - split; [discriminate | intros ->; contradiction]. }
  split; [apply Hgen|]. split; apply Hgen; reflexivity.
Qed.

Lemma X5_README_test_accepts_template_witness :
  Str.noWhiteSpace "Alice" = true
  /\ attached emptyDocument = ∅
  /\ (result (test_name_displayed "Alice" "Hello Alice!") emptyDocument = inr tt
      <-> "Hello Alice!" = "Hello " +:+ "Alice" +:+ "!").
Proof.
  split; [reflexivity|]. split; [reflexivity|].
  exact (proj1 (X5_README_test_accepts_template "Alice" "Hello Alice!"
                  emptyDocument eq_refl eq_refl)).
Defined.

Lemma renderChildren_text_only (cs : list child) (ns : list Node) :
  renderChildren cs = inr ns -> flat_map elements ns = [].
Proof.
  revert ns. induction cs as [|c cs IH]; intros ns; simpl.
  - now intros [= <-].
  - destruct (renderChild c) as [e|ns1] eqn:Hc; [discriminate|].
    destruct (renderChildren cs) as [e|ns2]; [discriminate|].
    intros [= <-]. rewrite flat_map_app, (IH ns2 eq_refl), app_nil_r.
    destruct c as [s|[| | b | [|a s] |]]; simpl in Hc; try discriminate;
      injection Hc as <-; reflexivity.
Qed.

(** A component of the shape of the listings renders one element, so a
    query on its tree is decided by the own text of that element. *)
Lemma getByText_of_component
    (C : component) (props : gmap string value) (tree : Node) (p : pattern) :
  renderElement C props = inr tree ->
  getByText p [tree]
  = if matchesText p (ownText tree) then inr tree else inl NotFoundError.
Proof.
  unfold renderElement, createDom.
  destruct (renderChildren (children (C props))) as [e|ns] eqn:Hns; [discriminate|].
  intros [= <-]. unfold getByText, queryAllByText.
  cbn [flat_map elements]. rewrite app_nil_r, (renderChildren_text_only _ _ Hns).
  cbn [List.filter]. now destruct (matchesText p _).
Qed.

(** X7: in a document with nothing attached, the test "should say hi to
    Bob" of the test file, run on any component of the shape of the
    listings (one element with text and expressions below it), passes
    exactly when the component renders and the text of its element
    includes "Hello, Bob!", comma included; it fails with NotFoundError
    exactly when the component renders another text, with the renderer's
    error exactly when rendering throws, and in no other way. The same
    holds for "should say hi to Alice" and "Hello, Alice!". *)
Theorem X7_test_file_outcomes (C : component) (d : Document) :
  attached d = ∅ ->
  let outcomes (t : Test unit) (props : gmap string value) (greeting : string) :=
    (result t d = inr tt
     <-> exists tree pre post,
           renderElement C props = inr tree
           /\ ownText tree = pre +:+ greeting +:+ post)
    /\ (result t d = inl (QueryFailed NotFoundError)
        <-> exists tree,
              renderElement C props = inr tree
              /\ ~ exists pre post, ownText tree = pre +:+ greeting +:+ post)
    /\ (forall e, result t d = inl (Thrown e) <-> renderElement C props = inl e)
    /\ result t d <> inl (QueryFailed AmbiguousMatchError)
    /\ result t d <> inl ExpectationFailed in
  outcomes (test_say_hi_to_Bob C) {[ "firstName" := VStr "Bob" ]} "Hello, Bob!"
  /\ outcomes (test_say_hi_to_Alice C) {[ "firstName" := VStr "Alice" ]}
               "Hello, Alice!".
Proof.
  intros Hd outcomes.
  assert (Hall : forall props greeting,
             outcomes (_ ← Harness.render C props;
                       found ← screenGetByText (Matching (RegExp.lit greeting) false);
                       expectToBeInTheDocument found) props greeting).
  { intros props greeting. unfold outcomes. rewrite (script_result C props _ d Hd).
    destruct (renderElement C props) as [e|tree] eqn:Hr.
    - split; [|split; [|split; [|split]]]; try discriminate.
      + split; [discriminate | intros (? & ? & ? & ? & _); discriminate].
      + split; [discriminate | intros (? & ? & _); discriminate].
      + intros e'. split; congruence.
    - rewrite (getByText_of_component C props tree _ Hr).
      cbn [matchesText].
      rewrite (proj2 (literal_expression_includes greeting (ownText tree))).
      destruct (Str.includes greeting (ownText tree)) eqn:Hinc.
      + apply includes_true in Hinc as (pre & post & Hinc).
        split; [|split; [|split; [|split]]]; try discriminate.
        * split; [|reflexivity]. intros _. now exists tree, pre, post.
        * split; [discriminate|]. intros (t' & [= <-] & Hnot).
          exfalso. apply Hnot. now exists pre, post.
        * intros e'. split; discriminate.
      + assert (Hnot : ~ exists pre post, ownText tree = pre +:+ greeting +:+ post).
        { intros Hex. apply includes_true in Hex. congruence. }
        split; [|split; [|split; [|split]]]; try discriminate.
        * split; [discriminate|]. intros (t' & pre & post & [= <-] & Hex).
          exfalso. apply Hnot. now exists pre, post.
        * split; [|reflexivity]. intros _. now exists tree.
        * intros e'. split; discriminate. }
  split; apply Hall.
Qed.

Lemma X7_test_file_outcomes_witness :
  let C : component :=
    fun p => {| type := "h1";
                children := [JSXText "Hello, ";
                             JSXExpressionContainer (get p "firstName");
                             JSXText "!"] |} in
  attached emptyDocument = ∅
  /\ result (test_say_hi_to_Bob C) emptyDocument = inr tt.
Proof.
  intros C. split; [reflexivity|].
  apply (proj1 (X7_test_file_outcomes C emptyDocument eq_refl)).
  exists (Element "h1" [Text "Hello, "; Text "Bob"; Text "!"]), EmptyString, EmptyString.
  split; vm_compute; reflexivity.
Defined.

End Scripts.

(** ** Test files run with the hook *)

Section Suites.

Import Harness Tests.

Lemma runTest_unfold {A : Type} (t : Test A) (d : Document) :
  runTest t d = (result t d, after afterEachHook (after t d)).
Proof. unfold runTest, result, after. now destruct (t d). Qed.

Lemma runTest_leaves_nothing {A : Type} (t : Test A) (d : Document) :
  attached (after afterEachHook (after t d)) = ∅.
Proof. unfold afterEachHook. now rewrite cleanup_detaches_everything. Qed.

(** X8: when a test file starts on a document with nothing attached,
    every one of its tests starts so, whatever the tests before it did
    and whether they passed: each recorded outcome is the outcome of that
    test on a document with nothing attached, and nothing is attached
    when the file is done. *)
Theorem X8_suite_isolation (ts : list (Test unit)) (d : Document) :
  attached d = ∅ ->
  Forall2 (fun t outcome => exists d0, attached d0 = ∅ /\ outcome = result t d0)
          ts (runSuite ts d).1
  /\ attached (runSuite ts d).2 = ∅.
Proof.
  revert d. induction ts as [|t ts IH]; intros d Hd; simpl.
  - split; [constructor | exact Hd].
  - rewrite runTest_unfold.
    destruct (IH (after afterEachHook (after t d)) (runTest_leaves_nothing t d))
      as [Hout Hend].
    destruct (runSuite ts (after afterEachHook (after t d))) as [outcomes d''].
    simpl in *. split; [|exact Hend].
    constructor; [|exact Hout]. now exists d.
Qed.

Lemma X8_suite_isolation_witness :
  let ts := [test_HelloWorld; test_say_hi_to_Bob HelloPerson; test_README_Bob] in
  attached emptyDocument = ∅
  /\ Forall2 (fun t outcome => exists d0, attached d0 = ∅ /\ outcome = result t d0)
             ts (runSuite ts emptyDocument).1
  /\ attached (runSuite ts emptyDocument).2 = ∅.
Proof.
  intros ts. split; [reflexivity|].
  exact (X8_suite_isolation ts emptyDocument eq_refl).
Defined.

Lemma test_HelloWorld_result (d : Document) :
  attached d = ∅ -> result test_HelloWorld d = inr tt.
Proof.
  intros Hd. unfold test_HelloWorld. now rewrite (script_result _ _ _ d Hd).
Qed.

Lemma two_headings_attached (h : nat) (tree : Node) :
  map snd (map_to_list (<[ S h := tree ]> (<[ h := tree ]> (∅ : gmap nat Node))))
  = [tree; tree].
Proof.
  assert (Hperm : Permutation
                    [tree; tree]
                    (map snd (map_to_list
                                (<[ S h := tree ]> (<[ h := tree ]> (∅ : gmap nat Node)))))).
  { symmetry.
    rewrite (Permutation_map snd
               (map_to_list_insert (<[ h := tree ]> (∅ : gmap nat Node)) (S h) tree
                  ltac:(rewrite lookup_insert_ne by lia; apply lookup_empty))).
    simpl. now rewrite screen_of_single_tree. }
  apply Permutation_length_2_inv in Hperm as [->| ->]; reflexivity.
Qed.

Lemma test_HelloWorld_first_run (nxt : nat) :
  test_HelloWorld {| attached := ∅; nextHandle := nxt |}
  = (inr tt,
     {| attached := <[ nxt := Element "h1" [Text "Hello World!"] ]> ∅;
        nextHandle := S nxt |}).
Proof.
  unfold test_HelloWorld, mbind, Test_bind, bind, Harness.render.
  cbn [renderElement createDom HelloWorld children type renderChildren
       renderChild app mount attached nextHandle].
  unfold screenGetByText, expectToBeInTheDocument. cbn [attached].
  rewrite screen_of_single_tree.
  assert (Hq : getByText (Exact "Hello World!") [Element "h1" [Text "Hello World!"]]
               = inr (Element "h1" [Text "Hello World!"])) by reflexivity.
  rewrite Hq. cbn [attached]. rewrite screen_of_single_tree. reflexivity.
Qed.

Lemma test_HelloWorld_second_run (nxt : nat) :
  result test_HelloWorld
    {| attached := <[ nxt := Element "h1" [Text "Hello World!"] ]> ∅;
       nextHandle := S nxt |}
  = inl (QueryFailed AmbiguousMatchError).
Proof.
  unfold result, test_HelloWorld, mbind, Test_bind, bind, Harness.render.
  cbn [renderElement createDom HelloWorld children type renderChildren
       renderChild app mount attached nextHandle].
  unfold screenGetByText. cbn [attached].
  rewrite two_headings_attached. reflexivity.
Qed.

(** X9: with the hook of [setupTests.js] the test of the HelloWorld test
    file can be run any number of times in a row and passes each time;
    run twice in a row without the hook, it fails the second time with
    AmbiguousMatchError, the heading of the first run being still
    attached. *)
Theorem X9_hook_makes_test_repeatable (k : nat) (d : Document) :
  attached d = ∅ ->
  (runSuite (replicate k test_HelloWorld) d).1 = replicate k (inr tt)
  /\ result (_ ← test_HelloWorld; test_HelloWorld) d
     = inl (QueryFailed AmbiguousMatchError).
Proof.
  intros Hd. split.
  - revert d Hd. induction k as [|k IH]; intros d Hd; simpl; [reflexivity|].
    rewrite runTest_unfold, (test_HelloWorld_result d Hd).
    specialize (IH _ (runTest_leaves_nothing test_HelloWorld d)).
    destruct (runSuite _ _) as [outcomes d'']. simpl in *. now rewrite IH.
  - destruct d as [att nxt]. simpl in Hd. subst att.
    pose proof (test_HelloWorld_second_run nxt) as Hsecond.
    unfold result in *. unfold mbind at 1, Test_bind, bind.
    rewrite test_HelloWorld_first_run. exact Hsecond.
Qed.

Lemma X9_hook_makes_test_repeatable_witness :
  attached emptyDocument = ∅
  /\ (runSuite (replicate 3 test_HelloWorld) emptyDocument).1 = replicate 3 (inr tt)
  /\ result (_ ← test_HelloWorld; test_HelloWorld) emptyDocument
     = inl (QueryFailed AmbiguousMatchError).
Proof.
  split; [reflexivity|].
  exact (X9_hook_makes_test_repeatable 3 emptyDocument eq_refl).
Defined.

End Suites.
